(** * WebRender bindings: compositor selection, thread pool handle and
      the render thread's bookkeeping

    A shallow embedding of [RenderCompositor.cpp] and of the inline parts
    of [RenderThread.h].  Pointers are [option]s or integers with
    [nullptr = 0]; a failed release assertion is the [Fatal] outcome;
    [std::unordered_map] is a [gmap]; [std::queue] and [std::list] are
    lists with the front at the head. *)

From stdpp Require Import gmap list strings.
From Stdlib Require Import ZArith Bool Lia.

Open Scope Z_scope.

#[global] Set Warnings "-clear-no-such-hyp".

(** ** Outcomes of code that can hit a fatal assertion *)

Inductive Outcome (A : Type) : Type :=
| Done (a : A)
| Fatal.

Arguments Done {A} a.
Arguments Fatal {A}.

Definition obind {A B} (o : Outcome A) (k : A -> Outcome B) : Outcome B :=
  match o with
  | Done a => k a
  | Fatal => Fatal
  end.

(** ** RenderCompositor.cpp *)

Module Compositor.

(** The preprocessor symbols [RenderCompositor::Create] is compiled under. *)
Record BuildConfig := {
  XP_WIN : bool;
  MOZ_WAYLAND : bool;
  MOZ_WIDGET_ANDROID : bool;
  XP_MACOSX : bool
}.

(** The concrete backends [Create] can ask for, in the order in which the
    function body mentions them. *)
Inductive BackendKind := ANGLE | EGL | NativeOGL | OGL.

#[global] Instance BackendKind_eq_dec : EqDecision BackendKind.
Proof. solve_decision. Defined.

(** [widget::CompositorWidget] and [gl::GLContext] are opaque handles. *)
Record GLContext := { glHandle : Z }.

Record RenderCompositor := {
  mKind : BackendKind;
  mWidget : Z;
  (** what the virtual accessor [gl()] yields: [None] is [nullptr] *)
  gl : option GLContext
}.

(** The run-time environment of [Create]: the graphics variable it reads
    and the factories of the backend classes.  The factories live in other
    translation units, so they are parameters: [None] is a null
    [UniquePtr]. *)
Record Env := {
  UseWebRenderANGLE : bool;
  factory : BackendKind -> Z -> option RenderCompositor
}.

(** [RenderCompositor::Create].  The first component records which
    factories were called, in call order; the second is the returned
    pointer. *)
Definition Create (cfg : BuildConfig) (env : Env) (aWidget : Z)
  : list BackendKind * option RenderCompositor :=
  if XP_WIN cfg && UseWebRenderANGLE env then
    ([ANGLE], factory env ANGLE aWidget)
  else
    let '(tried, eglCompositor) :=
      if MOZ_WAYLAND cfg || MOZ_WIDGET_ANDROID cfg
      then ([EGL], factory env EGL aWidget)
      else ([], None) in
    match eglCompositor with
    | Some c => (tried, Some c)
    | None =>
        if MOZ_WIDGET_ANDROID cfg then
          (* RenderCompositorOGL is not used on android *)
          (tried, None)
        else if XP_MACOSX cfg then
          (* Mac uses NativeLayerCA *)
          (tried ++ [NativeOGL], factory env NativeOGL aWidget)
        else
          (tried ++ [OGL], factory env OGL aWidget)
    end.

(** Which backends a build contains at all: the includes at the top of the
    file.  [RenderCompositorOGL.h] is included unconditionally. *)
Definition compiledIn (cfg : BuildConfig) (k : BackendKind) : bool :=
  match k with
  | ANGLE => XP_WIN cfg
  | EGL => MOZ_WAYLAND cfg || MOZ_WIDGET_ANDROID cfg
  | NativeOGL => XP_MACOSX cfg
  | OGL => true
  end.

Section GL.

(** The state of the GL driver and [GLContext::MakeCurrent], which is
    outside this repository. *)
Variable World : Type.
Variable GLContext_MakeCurrent : GLContext -> World -> bool * World.

(** Short-circuit [a || b] of two effectful boolean computations. *)
Definition orElse (a b : World -> bool * World) (w : World) : bool * World :=
  let '(r, w') := a w in
  if r then (true, w') else b w'.

(** [RenderCompositor::MakeCurrent]:
    [return !context || context->MakeCurrent();] *)
Definition MakeCurrent (c : RenderCompositor) : World -> bool * World :=
  let context := gl c in
  orElse
    (fun w => (negb (bool_decide (is_Some context)), w))
    (fun w =>
       match context with
       | Some ctx => GLContext_MakeCurrent ctx w
       | None => (false, w)  (* never evaluated: guarded by [!context] *)
       end).

(** [RenderCompositor::IsContextLost]: [return false;] *)
Definition IsContextLost (c : RenderCompositor) (w : World) : bool := false.

End GL.

End Compositor.

(** ** RenderThread.h: the shared thread pool handle *)

Module ThreadPool.

Definition nullptr : Z := 0.

Record WebRenderThreadPool := { mThreadPool : Z }.

(** [WebRenderThreadPool::Raw]: [MOZ_RELEASE_ASSERT(mThreadPool);] then
    [return mThreadPool;]. *)
Definition Raw (p : WebRenderThreadPool) : Outcome Z :=
  if mThreadPool p =? nullptr then Fatal else Done (mThreadPool p).

End ThreadPool.

(** ** RenderThread.h: pending frames, windows and external textures

    The header declares the data ([PendingFrameInfo], [WindowInfo], the
    texture map and its two lists) and the signatures of the operations;
    their bodies are in [RenderThread.cpp], which is not among the sources.
    The records below follow the header, the operations follow the
    specification of the coordinator. *)

Module RenderThread.

(** [struct PendingFrameInfo]. *)
Record PendingFrameInfo := {
  mStartTime : Z;
  mStartId : Z;
  mFrameNeedsRender : bool;
  (** Modelled from the spec: the per-frame arrival counter that
      [handleFrameOneDoc] increments; the header's struct has no such
      member. *)
  mArrivals : nat
}.

(** [struct WindowInfo]. *)
Record WindowInfo := {
  mPendingFrames : list PendingFrameInfo;
  mPendingFrameBuild : Z;
  mIsDestroyed : bool
}.

(** [int64_t PendingCount() { return mPendingFrames.size(); }] *)
Definition PendingCount (i : WindowInfo) : Z :=
  Z.of_nat (length (mPendingFrames i)).

(** A [WindowInfo] as its member initialisers leave it. *)
Definition newWindowInfo : WindowInfo :=
  {| mPendingFrames := []; mPendingFrameBuild := 0; mIsDestroyed := false |}.

(** What the worker does to the outside: the rendering state is the
    sequence of these, oldest first. *)
Inductive Effect :=
| Composite (w startId startTime : Z) (render : bool)
| RanEvent (w ev : Z)
| WokeUp (w : Z)
| NotifiedDeviceReset
| Prepared (host : Z)
| Locked (host : Z).

#[global] Instance Effect_eq_dec : EqDecision Effect.
Proof. solve_decision. Defined.

(** The window an effect acts on, if any. *)
Definition effectWindow (e : Effect) : option Z :=
  match e with
  | Composite w _ _ _ => Some w
  | RanEvent w _ => Some w
  | WokeUp w => Some w
  | _ => None
  end.

(** The members of [class RenderThread] the operations below use.  Window
    ids and external image ids are [uint64_t]; a [RefPtr<RenderTextureHost>]
    is the address of the host it shares. *)
Record State := {
  mWindowInfos : gmap Z WindowInfo;
  mRenderTextures : gmap Z Z;
  mRenderTexturesPrepareForUse : list Z;
  mRenderTexturesDeferred : list Z;
  (** Modelled from the spec: the references that in-flight render
      operations hold on texture hosts, outside the registry's three
      sets. *)
  mInFlight : list Z;
  mSharedGL : option Z;
  mSurfacePool : option Z;
  mHandlingDeviceReset : bool;
  mEffects : list Effect
}.

Definition initialState : State :=
  {| mWindowInfos := ∅; mRenderTextures := ∅;
     mRenderTexturesPrepareForUse := []; mRenderTexturesDeferred := [];
     mInFlight := []; mSharedGL := None; mSurfacePool := None;
     mHandlingDeviceReset := false; mEffects := [] |}.

Definition setWindowInfos (m : gmap Z WindowInfo) (st : State) : State :=
  {| mWindowInfos := m; mRenderTextures := mRenderTextures st;
     mRenderTexturesPrepareForUse := mRenderTexturesPrepareForUse st;
     mRenderTexturesDeferred := mRenderTexturesDeferred st;
     mInFlight := mInFlight st; mSharedGL := mSharedGL st;
     mSurfacePool := mSurfacePool st;
     mHandlingDeviceReset := mHandlingDeviceReset st;
     mEffects := mEffects st |}.

Definition setRenderTextures (m : gmap Z Z) (st : State) : State :=
  {| mWindowInfos := mWindowInfos st; mRenderTextures := m;
     mRenderTexturesPrepareForUse := mRenderTexturesPrepareForUse st;
     mRenderTexturesDeferred := mRenderTexturesDeferred st;
     mInFlight := mInFlight st; mSharedGL := mSharedGL st;
     mSurfacePool := mSurfacePool st;
     mHandlingDeviceReset := mHandlingDeviceReset st;
     mEffects := mEffects st |}.

Definition setPrepareForUse (l : list Z) (st : State) : State :=
  {| mWindowInfos := mWindowInfos st; mRenderTextures := mRenderTextures st;
     mRenderTexturesPrepareForUse := l;
     mRenderTexturesDeferred := mRenderTexturesDeferred st;
     mInFlight := mInFlight st; mSharedGL := mSharedGL st;
     mSurfacePool := mSurfacePool st;
     mHandlingDeviceReset := mHandlingDeviceReset st;
     mEffects := mEffects st |}.

Definition setDeferred (l : list Z) (st : State) : State :=
  {| mWindowInfos := mWindowInfos st; mRenderTextures := mRenderTextures st;
     mRenderTexturesPrepareForUse := mRenderTexturesPrepareForUse st;
     mRenderTexturesDeferred := l;
     mInFlight := mInFlight st; mSharedGL := mSharedGL st;
     mSurfacePool := mSurfacePool st;
     mHandlingDeviceReset := mHandlingDeviceReset st;
     mEffects := mEffects st |}.

Definition emit (es : list Effect) (st : State) : State :=
  {| mWindowInfos := mWindowInfos st; mRenderTextures := mRenderTextures st;
     mRenderTexturesPrepareForUse := mRenderTexturesPrepareForUse st;
     mRenderTexturesDeferred := mRenderTexturesDeferred st;
     mInFlight := mInFlight st; mSharedGL := mSharedGL st;
     mSurfacePool := mSurfacePool st;
     mHandlingDeviceReset := mHandlingDeviceReset st;
     mEffects := mEffects st ++ es |}.

(** The frame state of a window; it comes into being with the first frame
    activity of the window. *)
Definition windowInfo (w : Z) (st : State) : WindowInfo :=
  default newWindowInfo (mWindowInfos st !! w).

Definition setFrames (fs : list PendingFrameInfo) (i : WindowInfo) : WindowInfo :=
  {| mPendingFrames := fs; mPendingFrameBuild := mPendingFrameBuild i;
     mIsDestroyed := mIsDestroyed i |}.

Definition pendingLength (w : Z) (st : State) : Z :=
  PendingCount (windowInfo w st).

Section Coordinator.

(** Modelled from the spec: the configured backpressure ceiling of a
    window's pending-frame queue; its value is set in the missing
    [RenderThread.cpp]. *)
Variable maxFrameCount : Z.

(** Modelled from the spec: how many documents contribute to each pending
    frame of a window; section 4.2 of the specification refers to it
    without saying where it is kept. *)
Variable docCount : Z -> nat.

(** *** Frame pacing *)

(** Modelled from the spec: [RenderThread::IsDestroyed], whose body is in
    the missing [RenderThread.cpp]. *)
Definition IsDestroyed (aWindowId : Z) (st : State) : bool :=
  mIsDestroyed (windowInfo aWindowId st).

(** Modelled from the spec: [RenderThread::SetDestroyed] (body missing):
    marks the window, which is not removed. *)
Definition SetDestroyed (aWindowId : Z) (st : State) : State :=
  let info := windowInfo aWindowId st in
  setWindowInfos
    (<[aWindowId :=
         {| mPendingFrames := mPendingFrames info;
            mPendingFrameBuild := mPendingFrameBuild info;
            mIsDestroyed := true |}]> (mWindowInfos st)) st.

(** Modelled from the spec: [RenderThread::TooManyPendingFrames] (body
    missing): reports whether the queue is at its ceiling. *)
Definition TooManyPendingFrames (aWindowId : Z) (st : State) : bool :=
  pendingLength aWindowId st =? maxFrameCount.

(** Modelled from the spec: [RenderThread::IncPendingFrameCount] (body
    missing): appends a record with [needsRender = false]; a destroyed
    window accepts no new record. *)
Definition IncPendingFrameCount (aWindowId aStartId aStartTime : Z)
    (st : State) : State :=
  let info := windowInfo aWindowId st in
  if mIsDestroyed info then st
  else
    let frame := {| mStartTime := aStartTime; mStartId := aStartId;
                    mFrameNeedsRender := false; mArrivals := 0 |} in
    setWindowInfos
      (<[aWindowId := setFrames (mPendingFrames info ++ [frame]) info]>
         (mWindowInfos st)) st.

(** Modelled from the spec: frame completion, which takes the front record
    off the window's queue (the function is in the missing
    [RenderThread.cpp]). *)
Definition FrameRenderingComplete (aWindowId : Z) (st : State) : State :=
  let info := windowInfo aWindowId st in
  match mPendingFrames info with
  | [] => st
  | _ :: rest =>
      setWindowInfos (<[aWindowId := setFrames rest info]> (mWindowInfos st)) st
  end.

(** Modelled from the spec: [RenderThread::UpdateAndRender] (body missing),
    reduced to what the coordinator decides: while a device reset is being
    handled the render attempt is skipped, otherwise the window's renderer
    is run with the accumulated flag. *)
Definition UpdateAndRender (aWindowId aStartId aStartTime : Z) (aRender : bool)
    (st : State) : State :=
  if mHandlingDeviceReset st then st
  else emit [Composite aWindowId aStartId aStartTime aRender] st.

(** Modelled from the spec: [RenderThread::HandleFrameOneDoc] (body
    missing): ORs [aRender] into the front record, counts the arrival, and
    once every contributing document has reported, renders and dequeues.
    For a destroyed window the event is a no-op. *)
Definition HandleFrameOneDoc (aWindowId : Z) (aRender : bool) (st : State)
    : State :=
  let info := windowInfo aWindowId st in
  if mIsDestroyed info then st
  else
    match mPendingFrames info with
    | [] => st
    | frame :: rest =>
        let frame' :=
          {| mStartTime := mStartTime frame; mStartId := mStartId frame;
             mFrameNeedsRender := mFrameNeedsRender frame || aRender;
             mArrivals := S (mArrivals frame) |} in
        if (docCount aWindowId <=? mArrivals frame')%nat then
          FrameRenderingComplete aWindowId
            (UpdateAndRender aWindowId (mStartId frame') (mStartTime frame')
               (mFrameNeedsRender frame')
               (setWindowInfos
                  (<[aWindowId := setFrames (frame' :: rest) info]>
                     (mWindowInfos st)) st))
        else
          setWindowInfos
            (<[aWindowId := setFrames (frame' :: rest) info]>
               (mWindowInfos st)) st
    end.

(** Modelled from the spec: [RenderThread::RunEvent] (body missing): runs a
    forwarded event on the worker unless its window is destroyed. *)
Definition RunEvent (aWindowId aCallBack : Z) (st : State) : State :=
  if IsDestroyed aWindowId st then st
  else emit [RanEvent aWindowId aCallBack] st.

(** Modelled from the spec: [RenderThread::WakeUp] (body missing). *)
Definition WakeUp (aWindowId : Z) (st : State) : State :=
  if IsDestroyed aWindowId st then st
  else emit [WokeUp aWindowId] st.

(** The calls that reach the frame tracker of the coordinator. *)
Inductive FrameOp :=
| OpInc (w startId startTime : Z)
| OpComplete (w : Z)
| OpFrameOneDoc (w : Z) (render : bool)
| OpSetDestroyed (w : Z)
| OpRunEvent (w ev : Z)
| OpWakeUp (w : Z).

Definition stepFrame (st : State) (op : FrameOp) : State :=
  match op with
  | OpInc w i t => IncPendingFrameCount w i t st
  | OpComplete w => FrameRenderingComplete w st
  | OpFrameOneDoc w r => HandleFrameOneDoc w r st
  | OpSetDestroyed w => SetDestroyed w st
  | OpRunEvent w ev => RunEvent w ev st
  | OpWakeUp w => WakeUp w st
  end.

Definition runFrames (ops : list FrameOp) (st : State) : State :=
  foldl stepFrame st ops.


(** The logical OR of the per-document render flags of a frame. *)
Definition anyRender (flags : list bool) : bool := foldr orb false flags.

(** All the per-document reports of one frame, in arrival order. *)
Definition handleFrameDocs (aWindowId : Z) (flags : list bool) (st : State)
    : State :=
  foldl (fun s r => HandleFrameOneDoc aWindowId r s) st flags.

End Coordinator.

(** *** The external texture registry *)

(** Whether anything besides the primary map still refers to host [h]. *)
Definition referencedElsewhere (h : Z) (st : State) : bool :=
  bool_decide (h ∈ mRenderTexturesPrepareForUse st ++ mInFlight st).

(** How many references the coordinator's sets and the in-flight render
    operations hold on host [h]. *)
Definition occurrences (h : Z) (l : list Z) : nat :=
  length (filter (fun x => x = h) l).

Definition refCount (h : Z) (st : State) : nat :=
  (occurrences h (map_to_list (mRenderTextures st)).*2
   + occurrences h (mRenderTexturesPrepareForUse st)
   + occurrences h (mRenderTexturesDeferred st)
   + occurrences h (mInFlight st))%nat.

(** Modelled from the spec: [RenderThread::RegisterExternalImage] (body
    missing): inserts, and a duplicate id is an assertion failure. *)
Definition RegisterExternalImage (aExternalImageId aTexture : Z) (st : State)
    : Outcome State :=
  match mRenderTextures st !! aExternalImageId with
  | Some _ => Fatal
  | None =>
      Done (setRenderTextures
              (<[aExternalImageId := aTexture]> (mRenderTextures st)) st)
  end.

(** Modelled from the spec: [RenderThread::UnregisterExternalImage] (body
    missing): removes the id from the primary map and, if the host is
    still referenced elsewhere, hands the reference to the
    deferred-destruction list instead of freeing in place. *)
Definition UnregisterExternalImage (aExternalImageId : Z) (st : State)
    : Outcome State :=
  match mRenderTextures st !! aExternalImageId with
  | None => Done st
  | Some texture =>
      let st' :=
        setRenderTextures (delete aExternalImageId (mRenderTextures st)) st in
      if referencedElsewhere texture st
      then Done (setDeferred (mRenderTexturesDeferred st ++ [texture]) st')
      else Done st'
  end.

(** Modelled from the spec:
    [RenderThread::UnregisterExternalImageDuringShutdown] (body missing):
    skips the deferred list. *)
Definition UnregisterExternalImageDuringShutdown (aExternalImageId : Z)
    (st : State) : State :=
  setRenderTextures (delete aExternalImageId (mRenderTextures st)) st.

(** Modelled from the spec: [RenderThread::PrepareForUse] (body missing):
    stages the entry in the prepare list. *)
Definition PrepareForUse (aExternalImageId : Z) (st : State) : State :=
  match mRenderTextures st !! aExternalImageId with
  | None => st
  | Some texture =>
      setPrepareForUse (mRenderTexturesPrepareForUse st ++ [texture]) st
  end.

(** Modelled from the spec: [RenderThread::HandlePrepareForUse] (body
    missing): the worker calls the preparation hook of each staged entry,
    then clears the list. *)
Definition HandlePrepareForUse (st : State) : State :=
  setPrepareForUse []
    (emit (Prepared <$> mRenderTexturesPrepareForUse st) st).

(** Modelled from the spec: [RenderThread::DeferredRenderTextureHostDestroy]
    (body missing): the worker's normal drain of the deferred list. *)
Definition DeferredRenderTextureHostDestroy (st : State) : State :=
  setDeferred [] st.

(** Modelled from the spec: [RenderThread::GetRenderTexture] (body
    missing): the lookup in the primary map; [None] is [nullptr]. *)
Definition GetRenderTexture (aExternalImageId : Z) (st : State) : option Z :=
  mRenderTextures st !! aExternalImageId.

(** Modelled from the spec: the renderer's use of an external image while
    it draws: it looks the host up and calls [RenderTextureHost::Lock] on
    the result. *)
Definition lockExternalImage (aExternalImageId : Z) (st : State) : State :=
  match GetRenderTexture aExternalImageId st with
  | Some texture => emit [Locked texture] st
  | None => st
  end.

(** Modelled from the spec: one turn of the worker loop as far as textures
    go: the staged preparations, then the drawing, which locks the images
    [ids] the frame uses. *)
Definition workerTurn (ids : list Z) (st : State) : State :=
  foldl (fun s id => lockExternalImage id s) (HandlePrepareForUse st) ids.

(** Modelled from the spec: [RenderThread::HandleDeviceReset] (body
    missing): marks the flag, notifies the owning thread if asked to,
    releases the shared GL context and surface pool, and clears the
    deferred-destruction and prepare lists at once. *)
Definition HandleDeviceReset (aWhere : string) (aNotify : bool) (st : State)
    : State :=
  {| mWindowInfos := mWindowInfos st;
     mRenderTextures := mRenderTextures st;
     mRenderTexturesPrepareForUse := [];
     mRenderTexturesDeferred := [];
     mInFlight := mInFlight st;
     mSharedGL := None;
     mSurfacePool := None;
     mHandlingDeviceReset := true;
     mEffects :=
       mEffects st ++ (if aNotify then [NotifiedDeviceReset] else []) |}.

(** The window an operation of the tracker is addressed to. *)
Definition opWindow (op : FrameOp) : Z :=
  match op with
  | OpInc w _ _ | OpComplete w | OpFrameOneDoc w _ | OpSetDestroyed w
  | OpRunEvent w _ | OpWakeUp w => w
  end.

(** The record [IncPendingFrameCount] appends. *)
Definition freshFrame (i t : Z) : PendingFrameInfo :=
  {| mStartTime := t; mStartId := i; mFrameNeedsRender := false;
     mArrivals := 0 |}.

(** The effects done on behalf of window [w]. *)
Definition aboutWindow (w : Z) (e : Effect) : Prop := effectWindow e = Some w.

#[global] Instance aboutWindow_dec w e : Decision (aboutWindow w e).
Proof. unfold aboutWindow. apply _. Defined.

(** The calls that reach the texture registry. *)
Inductive TextureOp :=
| TRegister (id texture : Z)
| TUnregister (id : Z)
| TUnregisterDuringShutdown (id : Z)
| TPrepareForUse (id : Z)
| THandlePrepareForUse
| TDeferredDestroy
| TLock (id : Z)
| TDeviceReset (aWhere : string) (aNotify : bool).

Definition stepTexture (st : State) (op : TextureOp) : Outcome State :=
  match op with
  | TRegister id t => RegisterExternalImage id t st
  | TUnregister id => UnregisterExternalImage id st
  | TUnregisterDuringShutdown id =>
      Done (UnregisterExternalImageDuringShutdown id st)
  | TPrepareForUse id => Done (PrepareForUse id st)
  | THandlePrepareForUse => Done (HandlePrepareForUse st)
  | TDeferredDestroy => Done (DeferredRenderTextureHostDestroy st)
  | TLock id => Done (lockExternalImage id st)
  | TDeviceReset wh n => Done (HandleDeviceReset wh n st)
  end.

Fixpoint runTextures (ops : list TextureOp) (st : State) : Outcome State :=
  match ops with
  | [] => Done st
  | op :: ops' => obind (stepTexture st op) (runTextures ops')
  end.

(** Whether a call takes [id] out of the primary map. *)
Definition unregisters (id : Z) (op : TextureOp) : bool :=
  match op with
  | TUnregister id' | TUnregisterDuringShutdown id' => bool_decide (id' = id)
  | _ => false
  end.




(** Modelled from the spec: the callers' side of the prepare/lock protocol
    of section 4.3, which the registry does not check: a host is locked
    only after the caller has seen its preparation complete, that is, after
    it was staged by [PrepareForUse] and the worker has since run
    [HandlePrepareForUse].  [staged] are the hosts staged and not yet
    handled, [ready] the ones handled; a device reset drops what is
    staged. *)
Fixpoint followsPrepareProtocol (ops : list TextureOp) (st : State)
    (staged ready : list Z) : bool :=
  match ops with
  | [] => true
  | op :: ops' =>
      match stepTexture st op with
      | Fatal => true
      | Done st1 =>
          match op with
          | TPrepareForUse id =>
              followsPrepareProtocol ops' st1
                (match GetRenderTexture id st with
                 | Some h => h :: staged
                 | None => staged
                 end) ready
          | THandlePrepareForUse =>
              followsPrepareProtocol ops' st1 [] (staged ++ ready)
          | TDeviceReset _ _ => followsPrepareProtocol ops' st1 [] ready
          | TLock id =>
              match GetRenderTexture id st with
              | Some h => bool_decide (h ∈ ready)
              | None => true
              end && followsPrepareProtocol ops' st1 staged ready
          | _ => followsPrepareProtocol ops' st1 staged ready
          end
      end
  end.


End RenderThread.

(** ** webrender_ffi.h: the comparison operators of the FFI structs *)

Module Ffi.

(** [nsTArray::operator[]]: an index past the end is a crash. *)
Definition ElementAt {A : Type} (l : list A) (i : nat) : Outcome A :=
  match l !! i with
  | Some x => Done x
  | None => Fatal
  end.

(** [enum WRBorderStyle]; its enumerator [None] is written [None_] here. *)
Inductive WRBorderStyle :=
| None_ | Solid | Double | Dotted | Dashed | Hidden | Groove | Ridge
| Inset | Outset.

(** The integer value of an enumerator, which is what [==] compares. *)
Definition WRBorderStyle_value (s : WRBorderStyle) : Z :=
  match s with
  | None_ => 0 | Solid => 1 | Double => 2 | Dotted => 3 | Dashed => 4
  | Hidden => 5 | Groove => 6 | Ridge => 7 | Inset => 8 | Outset => 9
  end.

Section Equality.

(** The values of C's [float] and its [==]; and [mozilla::gfx::Color] with
    its [operator==], which is outside this repository. *)
Variable float : Type.
Variable feq : float -> float -> bool.
Variable Color : Type.
Variable Color_eq : Color -> Color -> bool.

(** [struct WRColor]. *)
Record WRColor := {
  WRColor_r : float; WRColor_g : float; WRColor_b : float; WRColor_a : float
}.

Definition WRColor_eq (x aRhs : WRColor) : bool :=
  feq (WRColor_r x) (WRColor_r aRhs) && feq (WRColor_g x) (WRColor_g aRhs)
  && feq (WRColor_b x) (WRColor_b aRhs) && feq (WRColor_a x) (WRColor_a aRhs).

(** [struct WRGlyphInstance]; [index] is a [uint32_t]. *)
Record WRGlyphInstance := {
  WRGlyphInstance_index : Z;
  WRGlyphInstance_x : float;
  WRGlyphInstance_y : float
}.

Definition WRGlyphInstance_eq (x other : WRGlyphInstance) : bool :=
  (WRGlyphInstance_index x =? WRGlyphInstance_index other)
  && feq (WRGlyphInstance_x x) (WRGlyphInstance_x other)
  && feq (WRGlyphInstance_y x) (WRGlyphInstance_y other).

(** [struct WRGlyphArray]. *)
Record WRGlyphArray := {
  WRGlyphArray_color : Color;
  WRGlyphArray_glyphs : list WRGlyphInstance
}.

(** The loop of [WRGlyphArray::operator==] from index [i] on, with
    [remaining = glyphs.Length() - i] iterations to go. *)
Fixpoint glyphsLoop (remaining i : nat) (glyphs other : list WRGlyphInstance)
    : Outcome bool :=
  match remaining with
  | O => Done true
  | S remaining' =>
      obind (ElementAt glyphs i) (fun x =>
      obind (ElementAt other i) (fun y =>
      if negb (WRGlyphInstance_eq x y) then Done false
      else glyphsLoop remaining' (S i) glyphs other))
  end.

(** [WRGlyphArray::operator==]. *)
Definition WRGlyphArray_eq (x other : WRGlyphArray) : Outcome bool :=
  if negb (Color_eq (WRGlyphArray_color x) (WRGlyphArray_color other))
     || negb (length (WRGlyphArray_glyphs x)
              =? length (WRGlyphArray_glyphs other))%nat
  then Done false
  else glyphsLoop (length (WRGlyphArray_glyphs x)) 0
         (WRGlyphArray_glyphs x) (WRGlyphArray_glyphs other).

(** [struct WRBorderSide]. *)
Record WRBorderSide := {
  WRBorderSide_width : float;
  WRBorderSide_color : WRColor;
  WRBorderSide_style : WRBorderStyle
}.

Definition WRBorderSide_eq (x aRhs : WRBorderSide) : bool :=
  feq (WRBorderSide_width x) (WRBorderSide_width aRhs)
  && WRColor_eq (WRBorderSide_color x) (WRBorderSide_color aRhs)
  && (WRBorderStyle_value (WRBorderSide_style x)
      =? WRBorderStyle_value (WRBorderSide_style aRhs)).

(** [struct WrLayoutSize]. *)
Record WrLayoutSize := {
  WrLayoutSize_width : float;
  WrLayoutSize_height : float
}.

Definition WrLayoutSize_eq (x aRhs : WrLayoutSize) : bool :=
  feq (WrLayoutSize_width x) (WrLayoutSize_width aRhs)
  && feq (WrLayoutSize_height x) (WrLayoutSize_height aRhs).

(** [struct WrRect]. *)
Record WrRect := {
  WrRect_x : float; WrRect_y : float;
  WrRect_width : float; WrRect_height : float
}.

Definition WrRect_eq (x aRhs : WrRect) : bool :=
  feq (WrRect_x x) (WrRect_x aRhs) && feq (WrRect_y x) (WrRect_y aRhs)
  && feq (WrRect_width x) (WrRect_width aRhs)
  && feq (WrRect_height x) (WrRect_height aRhs).

(** [struct WRImageMask]; [image] is a [WRImageKey], a [uint64_t]. *)
Record WRImageMask := {
  WRImageMask_image : Z;
  WRImageMask_rect : WrRect;
  WRImageMask_repeat : bool
}.

Definition WRImageMask_eq (x aRhs : WRImageMask) : bool :=
  (WRImageMask_image x =? WRImageMask_image aRhs)
  && WrRect_eq (WRImageMask_rect x) (WRImageMask_rect aRhs)
  && eqb (WRImageMask_repeat x) (WRImageMask_repeat aRhs).

(** Whether every [float] of a value compares equal to itself. *)
Definition selfEqual (f : float) : bool := feq f f.

Definition glyphSelfEqual (gl : WRGlyphInstance) : bool :=
  selfEqual (WRGlyphInstance_x gl) && selfEqual (WRGlyphInstance_y gl).

End Equality.

End Ffi.

(** ** Sample configurations and states *)

Import Compositor ThreadPool RenderThread.

(** A Windows build with ANGLE switched on, where ANGLE cannot be
    constructed although the OpenGL backend could. *)
Definition cfgWindows : BuildConfig :=
  {| XP_WIN := true; MOZ_WAYLAND := false; MOZ_WIDGET_ANDROID := false;
     XP_MACOSX := false |}.

Definition envOnlyOGLWorks : Env :=
  {| UseWebRenderANGLE := true;
     factory := fun k w =>
       match k with
       | OGL => Some {| mKind := OGL; mWidget := w; gl := None |}
       | _ => None
       end |}.

(** An Android build: EGL is the only backend [Create] asks for. *)
Definition cfgAndroid : BuildConfig :=
  {| XP_WIN := false; MOZ_WAYLAND := false; MOZ_WIDGET_ANDROID := true;
     XP_MACOSX := false |}.

(** A Wayland build where EGL fails and OpenGL works. *)
Definition cfgWayland : BuildConfig :=
  {| XP_WIN := false; MOZ_WAYLAND := true; MOZ_WIDGET_ANDROID := false;
     XP_MACOSX := false |}.

(** A driver in which context 1 can be made current and no other; the
    state of the driver is the handle of the current context. *)
Definition demoMakeCurrent (ctx : GLContext) (cur : Z) : bool * Z :=
  if glHandle ctx =? 1 then (true, 1) else (false, cur).

(** Every frame of every window has one contributing document, or two. *)
Definition oneDoc (w : Z) : nat := 1.
Definition twoDocs (w : Z) : nat := 2.

(** Window 1 has requested three frames, with vsync ids 1, 2 and 3. *)
Definition threeFrames : State :=
  runFrames twoDocs
    [OpInc 1 1 100; OpInc 1 2 200; OpInc 1 3 300] initialState.

(** Window 1 was destroyed with one frame outstanding. *)
Definition destroyedWindow : State :=
  SetDestroyed 1 (IncPendingFrameCount 1 1 100 initialState).


(** Calls reaching a destroyed window 1 and a live window 2. *)
Definition callsAfterDestroy : list FrameOp :=
  [OpInc 1 2 200; OpFrameOneDoc 1 true; OpRunEvent 1 5; OpWakeUp 1;
   OpInc 2 1 100; OpFrameOneDoc 2 true].


(** A caller that locks before the worker has handled the staging. *)
Definition hastyTraffic : list TextureOp :=
  [TRegister 5 100; TPrepareForUse 5; TLock 5; THandlePrepareForUse].

(** Registry traffic that never unregisters image 5. *)
Definition registryTraffic : list TextureOp :=
  [TPrepareForUse 5; TRegister 6 300; THandlePrepareForUse; TUnregister 6;
   TLock 5].

(** A stand-in for [float]: [None] is a NaN, which compares unequal to
    everything, itself included. *)
Definition demoFeq (x y : option Z) : bool :=
  match x, y with
  | Some u, Some v => u =? v
  | _, _ => false
  end.

(** Two glyphs in colour 1; and the same with a NaN coordinate. *)
Definition demoGlyphs : Ffi.WRGlyphArray (option Z) (option Z) :=
  {| Ffi.WRGlyphArray_color := Some 1;
     Ffi.WRGlyphArray_glyphs :=
       [ {| Ffi.WRGlyphInstance_index := 4;
            Ffi.WRGlyphInstance_x := Some 0;
            Ffi.WRGlyphInstance_y := Some 10 |};
         {| Ffi.WRGlyphInstance_index := 5;
            Ffi.WRGlyphInstance_x := Some 8;
            Ffi.WRGlyphInstance_y := Some 10 |} ] |}.

Definition demoGlyphsNaN : Ffi.WRGlyphArray (option Z) (option Z) :=
  {| Ffi.WRGlyphArray_color := Some 1;
     Ffi.WRGlyphArray_glyphs :=
       [ {| Ffi.WRGlyphInstance_index := 4;
            Ffi.WRGlyphInstance_x := Some 0;
            Ffi.WRGlyphInstance_y := Some 10 |};
         {| Ffi.WRGlyphInstance_index := 5;
            Ffi.WRGlyphInstance_x := None;
            Ffi.WRGlyphInstance_y := Some 10 |} ] |}.

(** An environment in which EGL and OpenGL can be constructed and ANGLE
    is switched off. *)
Definition envEGLWorks : Env :=
  {| UseWebRenderANGLE := false;
     factory := fun k w =>
       match k with
       | EGL | OGL => Some {| mKind := k; mWidget := w; gl := None |}
       | _ => None
       end |}.

(** * Properties *)

(** ** Backend selection *)

Example Create_wayland_falls_back :
  Create cfgWayland envOnlyOGLWorks 7
  = ([EGL; OGL], Some {| mKind := OGL; mWidget := 7; gl := None |}).
Proof. reflexivity. Qed.

Example Create_android_no_OGL :
  Create cfgAndroid envOnlyOGLWorks 7 = ([EGL], None).
Proof. reflexivity. Qed.

Ltac sublist_tac :=
  solve [eauto 10 using sublist_nil, sublist_cons, sublist_skip].

(** C1, as the code has it: [Create] never tries every backend of the
    priority list.  On this Windows configuration it calls the ANGLE
    factory only and returns its null result, although the OpenGL backend
    is compiled in and would have been constructed. *)
Lemma Create_ANGLE_failure_is_final :
  Create cfgWindows envOnlyOGLWorks 7 = ([ANGLE], None)
  /\ compiledIn cfgWindows OGL = true
  /\ is_Some (factory envOnlyOGLWorks OGL 7).
Proof.
  split; [reflexivity|]. split; [reflexivity|]. eexists; reflexivity.
Qed.

(** C1, amended: [Create] follows the priority order ANGLE, EGL,
    NativeOGL, OGL but tries only part of it.  With ANGLE enabled on
    Windows it calls ANGLE alone and returns its result, null or not.
    Otherwise it calls EGL first wherever EGL is compiled in, and returns
    the EGL compositor if there is one; only when EGL is absent or failed
    does it go on: on Android it returns none, on macOS it calls NativeOGL
    and elsewhere OGL, and returns that result.  So the factories called
    form a non-empty subsequence of the priority order, the result is that
    of the last one called, every one called before it failed, and
    [Create] returns none exactly when every factory it called failed. *)
Theorem Create_selection (cfg : BuildConfig) (env : Env) (w : Z) :
  let tried := fst (Create cfg env w) in
  let r := snd (Create cfg env w) in
  let gate := XP_WIN cfg && UseWebRenderANGLE env in
  let fallback := if XP_MACOSX cfg then NativeOGL else OGL in
  tried <> []
  /\ sublist tried [ANGLE; EGL; NativeOGL; OGL]
  /\ (forall k, k ∈ tried -> compiledIn cfg k = true)
  /\ (exists k, last tried = Some k /\ r = factory env k w
                /\ forall k', k' ∈ tried -> k' <> k -> factory env k' w = None)
  /\ (r = None <-> forall k, k ∈ tried -> factory env k w = None)
  /\ (gate = true -> tried = [ANGLE] /\ r = factory env ANGLE w)
  /\ (gate = false -> MOZ_WIDGET_ANDROID cfg = true ->
      tried = [EGL] /\ r = factory env EGL w)
  /\ (2 <= length tried -> tried = [EGL; fallback])%nat
  /\ (gate = false -> compiledIn cfg EGL = true -> head tried = Some EGL)
  /\ (gate = false -> compiledIn cfg EGL = true ->
      forall c, factory env EGL w = Some c -> tried = [EGL] /\ r = Some c)
  /\ (gate = false -> MOZ_WIDGET_ANDROID cfg = false ->
      (compiledIn cfg EGL = true -> factory env EGL w = None) ->
      tried = (if MOZ_WAYLAND cfg then [EGL] else []) ++ [fallback]
      /\ r = factory env fallback w).
Proof.
  destruct cfg as [win way andr mac], env as [angle f].
  cbv zeta. unfold Create; cbn [XP_WIN MOZ_WAYLAND MOZ_WIDGET_ANDROID XP_MACOSX
                      UseWebRenderANGLE factory compiledIn].
  destruct win, angle, way, andr, mac; cbn;
    destruct (f EGL w) as [c|] eqn:Hegl; cbn;
    (split; [done|]);
    (split; [sublist_tac|]);
    (split; [set_unfold; naive_solver|]);
    (split; [eexists; split; [reflexivity|];
             split; [done|set_unfold; naive_solver]|]);
    (split; [split; [set_unfold; naive_solver
                    |intros Hall;
                     first [ apply Hall; set_solver
                           | specialize (Hall EGL ltac:(set_solver));
                             congruence ]]|]);
    (split; [done|]);
    (split; [first [done | by intros _ _; rewrite Hegl]|]);
    (split; [cbn; first [done | lia]|]);
    (split; [done|]);
    (split; [first [done | by intros _ _ c' [= <-]]|]);
    first [ done
          | intros _ _ Hnone;
            first [ by specialize (Hnone eq_refl)
                  | split; [reflexivity|];
                    first [ reflexivity
                          | specialize (Hnone eq_refl); congruence ] ] ].
Qed.

(** ** The GL context of a compositor *)

Section CompositorGL.

Variable World : Type.
Variable GLContext_MakeCurrent : GLContext -> World -> bool * World.

(** C5: [IsContextLost] answers [false] for every compositor, whatever its
    backend, widget or GL context, and whatever the state of the driver. *)
Theorem IsContextLost_always_false (c : RenderCompositor) (w : World) :
  IsContextLost World c w = false.
Proof. destruct c as [k wd [ctx|]]; reflexivity. Qed.

(** C9: a compositor whose [gl()] is null reports success from
    [MakeCurrent] without touching the driver; otherwise [MakeCurrent]
    is exactly the context's own [MakeCurrent], result and effect. *)
Theorem MakeCurrent_null_or_context (c : RenderCompositor) (w : World) :
  (gl c = None ->
   MakeCurrent World GLContext_MakeCurrent c w = (true, w))
  /\ (forall ctx, gl c = Some ctx ->
      MakeCurrent World GLContext_MakeCurrent c w
      = GLContext_MakeCurrent ctx w).
Proof.
  unfold MakeCurrent, orElse. split.
  - intros ->. rewrite bool_decide_eq_false_2; [reflexivity|].
    intros [x Hx]; discriminate.
  - intros ctx ->. rewrite bool_decide_eq_true_2; [|by eexists].
    cbn. reflexivity.
Qed.

End CompositorGL.

Lemma MakeCurrent_null_or_context_witness :
  MakeCurrent Z demoMakeCurrent
    {| mKind := OGL; mWidget := 7; gl := None |} 0 = (true, 0)
  /\ MakeCurrent Z demoMakeCurrent
       {| mKind := EGL; mWidget := 7; gl := Some {| glHandle := 2 |} |} 0
     = (false, 0)
  /\ MakeCurrent Z demoMakeCurrent
       {| mKind := EGL; mWidget := 7; gl := Some {| glHandle := 1 |} |} 0
     = (true, 1).
Proof.
  split; [|split].
  - apply (proj1 (MakeCurrent_null_or_context Z demoMakeCurrent
                    {| mKind := OGL; mWidget := 7; gl := None |} 0)).
    reflexivity.
  - apply (proj2 (MakeCurrent_null_or_context Z demoMakeCurrent
                    {| mKind := EGL; mWidget := 7;
                       gl := Some {| glHandle := 2 |} |} 0)
             {| glHandle := 2 |}).
    reflexivity.
  - apply (proj2 (MakeCurrent_null_or_context Z demoMakeCurrent
                    {| mKind := EGL; mWidget := 7;
                       gl := Some {| glHandle := 1 |} |} 0)
             {| glHandle := 1 |}).
    reflexivity.
Defined.

(** ** The thread pool handle *)

(** C10: [Raw] never returns a null pointer: on a null [mThreadPool] the
    call is fatal, and a value it does return is the non-null pool
    pointer. *)
Theorem Raw_never_null (p : WebRenderThreadPool) :
  (mThreadPool p = nullptr -> Raw p = Fatal)
  /\ (forall v, Raw p = Done v -> v <> nullptr /\ v = mThreadPool p).
Proof.
  unfold Raw. split.
  - intros ->. reflexivity.
  - intros v. destruct (mThreadPool p =? nullptr) eqn:Hnull; [discriminate|].
    intros [= <-]. apply Z.eqb_neq in Hnull. done.
Qed.

Lemma Raw_never_null_witness :
  Raw {| mThreadPool := 0 |} = Fatal
  /\ (4096 <> nullptr /\ 4096 = mThreadPool {| mThreadPool := 4096 |}).
Proof.
  split.
  - apply (proj1 (Raw_never_null {| mThreadPool := 0 |})). reflexivity.
  - apply (proj2 (Raw_never_null {| mThreadPool := 4096 |}) 4096).
    reflexivity.
Defined.

(** ** The pending-frame tracker *)

Section FrameTracker.

Variable maxFrameCount : Z.
Variable docCount : Z -> nat.

Local Abbreviation step := (stepFrame docCount).
Local Abbreviation run := (runFrames docCount).
Local Abbreviation frames w st := (mPendingFrames (windowInfo w st)).

Lemma windowInfo_insert w i m st :
  windowInfo w (setWindowInfos (<[w := i]> m) st) = i.
Proof. unfold windowInfo; cbn. by rewrite lookup_insert_eq. Qed.

Lemma windowInfo_insert_ne w w' i st :
  w <> w' ->
  windowInfo w' (setWindowInfos (<[w := i]> (mWindowInfos st)) st)
  = windowInfo w' st.
Proof. intros Hne. unfold windowInfo; cbn. by rewrite lookup_insert_ne. Qed.

Lemma windowInfo_emit w es st : windowInfo w (emit es st) = windowInfo w st.
Proof. reflexivity. Qed.

Lemma windowInfo_UpdateAndRender w w' i t r st :
  windowInfo w' (UpdateAndRender w i t r st) = windowInfo w' st.
Proof. unfold UpdateAndRender. by destruct (mHandlingDeviceReset st). Qed.


Lemma FrameRenderingComplete_info w w' st :
  windowInfo w' (FrameRenderingComplete w st)
  = if decide (w = w')
    then setFrames (tail (frames w st)) (windowInfo w st)
    else windowInfo w' st.
Proof.
  unfold FrameRenderingComplete.
  destruct (frames w st) as [|f rest] eqn:Hfs.
  - case_decide as Hw; [subst w'|done].
    destruct (windowInfo w st) as [fs b d]; cbn in *. by subst fs.
  - case_decide as Hw; [subst w'|].
    + by rewrite windowInfo_insert.
    + by rewrite windowInfo_insert_ne.
Qed.

Lemma FrameRenderingComplete_effects w st :
  mEffects (FrameRenderingComplete w st) = mEffects st.
Proof.
  unfold FrameRenderingComplete. by destruct (frames w st).
Qed.

Ltac no_effects :=
  exists []; rewrite app_nil_r;
  split; [reflexivity|split; [by intros e ?%elem_of_nil|done]].

(** What one call does to the frame state of any window [w'] and to the
    rendering state. *)
Lemma step_spec st op w' :
  (IsDestroyed w' st = true ->
   IsDestroyed w' (step st op) = true
   /\ frames w' (step st op) `suffix_of` frames w' st)
  /\ ((length (frames w' (step st op)) <= length (frames w' st))%nat
      \/ exists i t, op = OpInc w' i t /\ IsDestroyed w' st = false
           /\ frames w' (step st op) = frames w' st ++ [freshFrame i t])
  /\ (exists es, mEffects (step st op) = mEffects st ++ es
        /\ (forall e, e ∈ es -> effectWindow e = Some (opWindow op))
        /\ (IsDestroyed (opWindow op) st = true -> es = [])).
Proof.
  destruct op as [w i t|w|w r|w|w ev|w]; cbn [stepFrame opWindow].
  - (* IncPendingFrameCount *)
    unfold IncPendingFrameCount, IsDestroyed.
    destruct (mIsDestroyed (windowInfo w st)) eqn:Hd.
    + split; [done|]. split; [by left|]. no_effects.
    + destruct (decide (w = w')) as [->|Hne].
      * rewrite windowInfo_insert. cbn. split; [congruence|].
        split; [right; by exists i, t|]. no_effects.
      * rewrite windowInfo_insert_ne by done. split; [done|].
        split; [by left|]. no_effects.
  - (* frame completion *)
    unfold IsDestroyed. rewrite FrameRenderingComplete_info,
      FrameRenderingComplete_effects.
    case_decide as Hw; [subst w'|].
    + cbn. split; [|split].
      * intros Hd. split; [done|].
        destruct (frames w st); [done|]. cbn. by apply suffix_cons_r.
      * left. destruct (frames w st); cbn; lia.
      * no_effects.
    + split; [done|]. split; [by left|]. no_effects.
  - (* HandleFrameOneDoc *)
    unfold HandleFrameOneDoc, IsDestroyed.
    destruct (mIsDestroyed (windowInfo w st)) eqn:Hd.
    { split; [done|]. split; [by left|]. no_effects. }
    destruct (frames w st) as [|f rest] eqn:Hfs.
    { split; [done|]. split; [by left|]. no_effects. }
    cbv zeta. cbn [mArrivals mStartId mStartTime mFrameNeedsRender].
    destruct (docCount w <=? S (mArrivals f))%nat eqn:Hall.
    + rewrite FrameRenderingComplete_info, FrameRenderingComplete_effects.
      rewrite !windowInfo_UpdateAndRender.
      split; [|split].
      * case_decide as Hw; [subst w'; congruence|].
        by rewrite windowInfo_insert_ne.
      * left. case_decide as Hw; [subst w'|].
        -- rewrite windowInfo_insert. cbn. rewrite Hfs. cbn; lia.
        -- by rewrite windowInfo_insert_ne.
      * unfold UpdateAndRender; cbn.
        destruct (mHandlingDeviceReset st); cbn.
        -- no_effects.
        -- eexists; split; [reflexivity|]. split; [|congruence].
           intros e He. apply list_elem_of_singleton in He as ->. done.
    + split; [|split].
      * destruct (decide (w = w')) as [->|Hne]; [congruence|].
        by rewrite windowInfo_insert_ne.
      * left. destruct (decide (w = w')) as [->|Hne].
        -- rewrite windowInfo_insert. cbn. rewrite Hfs. done.
        -- by rewrite windowInfo_insert_ne.
      * no_effects.
  - (* SetDestroyed *)
    unfold SetDestroyed, IsDestroyed.
    destruct (decide (w = w')) as [->|Hne].
    + rewrite windowInfo_insert. cbn. split; [done|]. split; [by left|].
      no_effects.
    + rewrite windowInfo_insert_ne by done. split; [done|].
      split; [by left|]. no_effects.
  - (* RunEvent *)
    unfold RunEvent. destruct (IsDestroyed w st) eqn:Hd.
    + split; [done|]. split; [by left|]. no_effects.
    + split; [done|]. split; [by left|].
      eexists; split; [reflexivity|]. split; [|done].
      intros e He. apply list_elem_of_singleton in He as ->. done.
  - (* WakeUp *)
    unfold WakeUp. destruct (IsDestroyed w st) eqn:Hd.
    + split; [done|]. split; [by left|]. no_effects.
    + split; [done|]. split; [by left|].
      eexists; split; [reflexivity|]. split; [|done].
      intros e He. apply list_elem_of_singleton in He as ->. done.
Qed.

Lemma runFrames_cons op ops st : run (op :: ops) st = run ops (step st op).
Proof. reflexivity. Qed.

Lemma runFrames_app ops1 ops2 st : run (ops1 ++ ops2) st = run ops2 (run ops1 st).
Proof. apply foldl_app. Qed.



(** The bound is the producers' doing: [IncPendingFrameCount] itself
    appends whatever the length of the queue, so a producer that does not
    ask first takes a queue with ceiling 1 to length 2. *)
Lemma IncPendingFrameCount_can_overflow :
  let st := runFrames (fun _ => 1%nat)
              [OpInc 1 10 100; OpInc 1 11 101] initialState in
  pendingLength 1 st = 2
  /\ ~ pendingLength 1 st <= 1
  /\ TooManyPendingFrames 1 1 st = false.
Proof.
  intros st.
  assert (pendingLength 1 st = 2) as Hlen by (vm_compute; reflexivity).
  split; [exact Hlen|]. split; [lia|].
  unfold TooManyPendingFrames. rewrite Hlen. reflexivity.
Qed.


(** ** Destroyed windows *)

Lemma filter_none {A} (P : A -> Prop) `{!forall x, Decision (P x)} (l : list A) :
  (forall x, x ∈ l -> ~ P x) -> filter P l = [].
Proof.
  intros Hnone. destruct (filter P l) as [|x l'] eqn:Hf; [done|].
  assert (x ∈ filter P l) as Hx by (rewrite Hf; left).
  apply list_elem_of_filter in Hx as [HP Hin]. by destruct (Hnone x Hin).
Qed.

Lemma SetDestroyed_sets_flag w st : IsDestroyed w (SetDestroyed w st) = true.
Proof. unfold IsDestroyed, SetDestroyed. by rewrite windowInfo_insert. Qed.

(** C8: once a window is destroyed it stays destroyed through every later
    call; its queue takes no new record (it can only be drained from the
    front); the calls addressed to it, [IncPendingFrameCount] and the
    worker's events, leave the state as it is; and nothing is done to the
    rendering state on its behalf. *)
Theorem destroyed_is_terminal (w : Z) (ops : list FrameOp) (st : State) :
  IsDestroyed w st = true ->
  let st' := run ops st in
  IsDestroyed w st' = true
  /\ frames w st' `suffix_of` frames w st
  /\ filter (aboutWindow w) (mEffects st') = filter (aboutWindow w) (mEffects st)
  /\ (forall i t, IncPendingFrameCount w i t st' = st')
  /\ (forall r, HandleFrameOneDoc docCount w r st' = st')
  /\ (forall ev, RunEvent w ev st' = st')
  /\ WakeUp w st' = st'.
Proof.
  intros Hd st'.
  assert (IsDestroyed w st' = true
          /\ frames w st' `suffix_of` frames w st
          /\ filter (aboutWindow w) (mEffects st')
             = filter (aboutWindow w) (mEffects st)) as (Hd' & Hsuf & Heff).
  { subst st'. revert st Hd. induction ops as [|op ops IH]; intros st Hd.
    - done.
    - rewrite runFrames_cons.
      destruct (step_spec st op w) as (Hdest & _ & es & Hes & Hwin & Hnone).
      destruct (Hdest Hd) as [Hd1 Hsuf1].
      destruct (IH _ Hd1) as (Hd2 & Hsuf2 & Heff2).
      split; [done|]. split; [by etrans|].
      rewrite Heff2, Hes, filter_app.
      assert (filter (aboutWindow w) es = []) as ->; [|by rewrite app_nil_r].
      destruct (decide (opWindow op = w)) as [Hw|Hw].
      + rewrite Hnone; [done|]. by rewrite Hw.
      + apply filter_none. intros e He Habout. apply Hwin in He.
        unfold aboutWindow in Habout. congruence. }
  split; [done|]. split; [done|]. split; [done|].
  unfold IncPendingFrameCount, HandleFrameOneDoc, RunEvent, WakeUp.
  unfold IsDestroyed in Hd'. unfold IsDestroyed. rewrite Hd'. done.
Qed.

(** ** Accumulating the per-document reports of a frame *)

Lemma anyRender_perm flags flags' :
  flags ≡ₚ flags' -> anyRender flags = anyRender flags'.
Proof.
  unfold anyRender.
  induction 1 as [|x l l' _ IH|x y l|l l' l'' _ IH1 _ IH2]; cbn.
  - done.
  - by rewrite IH.
  - by destruct x, y.
  - by etrans.
Qed.

Lemma anyRender_app flags flags' :
  anyRender (flags ++ flags') = anyRender flags || anyRender flags'.
Proof.
  unfold anyRender.
  induction flags as [|x flags IH]; cbn; [done|].
  by rewrite IH, orb_assoc.
Qed.

(** Rendering and completing a frame does not depend on what was written
    into the front record before. *)
Lemma complete_after_update w i t r f f0 rest st :
  frames w st = f0 :: rest ->
  FrameRenderingComplete w
    (UpdateAndRender w i t r
       (setWindowInfos
          (<[w := setFrames (f :: rest) (windowInfo w st)]> (mWindowInfos st))
          st))
  = FrameRenderingComplete w (UpdateAndRender w i t r st).
Proof.
  intros Hfs. unfold FrameRenderingComplete.
  rewrite !windowInfo_UpdateAndRender, windowInfo_insert, Hfs. cbn.
  unfold UpdateAndRender; cbn.
  destruct (mHandlingDeviceReset st); cbn;
    unfold setWindowInfos, emit, setFrames; cbn;
    by rewrite insert_insert_eq.
Qed.

Lemma handleFrameDocs_all w flags r st f rest :
  IsDestroyed w st = false ->
  frames w st = f :: rest ->
  (mArrivals f + length flags < docCount w)%nat ->
  (docCount w <= S (mArrivals f + length flags))%nat ->
  handleFrameDocs docCount w (flags ++ [r]) st
  = FrameRenderingComplete w
      (UpdateAndRender w (mStartId f) (mStartTime f)
         (mFrameNeedsRender f || anyRender (flags ++ [r])) st).
Proof.
  revert st f. induction flags as [|r0 flags IH]; intros st f Hd Hfs Hlt Hle.
  - cbn. unfold HandleFrameOneDoc. unfold IsDestroyed in Hd.
    rewrite Hd, Hfs. cbv zeta.
    cbn [mArrivals mStartId mStartTime mFrameNeedsRender].
    cbn in Hle. rewrite Nat.add_0_r in Hle.
    apply Nat.leb_le in Hle. rewrite Hle, orb_false_r.
    by eapply complete_after_update.
  - change (handleFrameDocs docCount w ((r0 :: flags) ++ [r]) st)
      with (handleFrameDocs docCount w (flags ++ [r])
              (HandleFrameOneDoc docCount w r0 st)).
    unfold HandleFrameOneDoc at 1. pose proof Hd as Hd0.
    unfold IsDestroyed in Hd0. rewrite Hd0, Hfs. cbv zeta.
    cbn [mArrivals mStartId mStartTime mFrameNeedsRender].
    cbn [length] in Hlt, Hle.
    assert ((docCount w <=? S (mArrivals f))%nat = false) as ->
      by (apply Nat.leb_gt; lia).
    rewrite (IH _ {| mStartTime := mStartTime f; mStartId := mStartId f;
                     mFrameNeedsRender := mFrameNeedsRender f || r0;
                     mArrivals := S (mArrivals f) |}).
    + cbn [mStartId mStartTime mFrameNeedsRender].
      change (anyRender ((r0 :: flags) ++ [r]))
        with (r0 || anyRender (flags ++ [r])).
      rewrite orb_assoc. by eapply complete_after_update.
    + unfold IsDestroyed. by rewrite windowInfo_insert.
    + by rewrite windowInfo_insert.
    + cbn. lia.
    + cbn. lia.
Qed.

(** C3: when every contributing document has reported for the front frame
    of a window, the frame is rendered once and dequeued, and the render
    flag handed to the renderer is the OR of the reported flags; reports
    arriving in any other order lead to the same state. *)
Theorem HandleFrameOneDoc_order_independent
    (w : Z) (flags flags' : list bool) (st : State)
    (f : PendingFrameInfo) (rest : list PendingFrameInfo) :
  IsDestroyed w st = false ->
  frames w st = f :: rest ->
  mFrameNeedsRender f = false ->
  mArrivals f = 0%nat ->
  flags <> [] ->
  docCount w = length flags ->
  flags ≡ₚ flags' ->
  handleFrameDocs docCount w flags st
  = FrameRenderingComplete w
      (UpdateAndRender w (mStartId f) (mStartTime f) (anyRender flags) st)
  /\ handleFrameDocs docCount w flags' st = handleFrameDocs docCount w flags st
  /\ frames w (handleFrameDocs docCount w flags st) = rest
  /\ (mHandlingDeviceReset st = false ->
      mEffects (handleFrameDocs docCount w flags st)
      = mEffects st
          ++ [Composite w (mStartId f) (mStartTime f) (anyRender flags)]).
Proof.
  intros Hd Hfs Hneeds Harr Hne Hcount Hperm.
  assert (forall fl, fl <> [] -> docCount w = length fl ->
            handleFrameDocs docCount w fl st
            = FrameRenderingComplete w
                (UpdateAndRender w (mStartId f) (mStartTime f)
                   (anyRender fl) st)) as Hall.
  { intros fl Hfl Hlen. destruct fl as [|r fl _] using rev_ind; [done|].
    rewrite length_app in Hlen. cbn in Hlen.
    erewrite handleFrameDocs_all; [|done|done|lia|lia].
    by rewrite Hneeds. }
  assert (handleFrameDocs docCount w flags' st
          = handleFrameDocs docCount w flags st) as Hsame.
  { assert (flags' <> []) as Hne'
      by (intros ->; by apply Permutation_nil_r in Hperm).
    assert (docCount w = length flags') as Hcount'
      by (by rewrite <- (Permutation_length Hperm)).
    rewrite !Hall by done. by rewrite (anyRender_perm _ _ Hperm). }
  split; [by apply Hall|]. split; [done|].
  rewrite Hall by done. split.
  - rewrite FrameRenderingComplete_info, decide_True by done.
    rewrite windowInfo_UpdateAndRender, Hfs. done.
  - intros Hreset. rewrite FrameRenderingComplete_effects.
    unfold UpdateAndRender. by rewrite Hreset.
Qed.

End FrameTracker.

(** ** The external texture registry *)

(** C4: when [HandleDeviceReset] returns, the prepare list and the
    deferred-destruction list are empty, whatever they held and without
    the worker's drain having run: no preparation hook is called, the
    primary map is untouched, and every host has lost exactly the
    references the two lists held on it. *)
Theorem HandleDeviceReset_releases_queues
    (aWhere : string) (aNotify : bool) (st : State) :
  let st' := HandleDeviceReset aWhere aNotify st in
  mRenderTexturesPrepareForUse st' = []
  /\ mRenderTexturesDeferred st' = []
  /\ mHandlingDeviceReset st' = true
  /\ mRenderTextures st' = mRenderTextures st
  /\ mEffects st'
     = mEffects st ++ (if aNotify then [NotifiedDeviceReset] else [])
  /\ forall h,
       (refCount h st'
        + occurrences h (mRenderTexturesPrepareForUse st)
        + occurrences h (mRenderTexturesDeferred st))%nat
       = refCount h st.
Proof.
  cbv zeta. repeat (split; [reflexivity|]).
  intros h. unfold refCount, HandleDeviceReset.
  cbn [mRenderTextures mRenderTexturesPrepareForUse mRenderTexturesDeferred
       mInFlight].
  change (occurrences h []) with 0%nat. lia.
Qed.

Lemma stepTexture_keeps_registered id op st st' :
  unregisters id op = false ->
  is_Some (mRenderTextures st !! id) ->
  stepTexture st op = Done st' ->
  is_Some (mRenderTextures st' !! id).
Proof.
  intros Hop Hreg. destruct op as [id' t|id'|id'|id'| | |id'|wh n]; cbn.
  - unfold RegisterExternalImage.
    destruct (mRenderTextures st !! id') eqn:Hid'; [done|].
    intros [= <-]. cbn. destruct (decide (id' = id)) as [->|Hne].
    + rewrite lookup_insert_eq. by eexists.
    + by rewrite lookup_insert_ne.
  - unfold UnregisterExternalImage. cbn in Hop.
    apply bool_decide_eq_false in Hop.
    destruct (mRenderTextures st !! id') eqn:Hid'; [|by intros [= <-]].
    destruct (referencedElsewhere _ _); intros [= <-]; cbn;
      by rewrite lookup_delete_ne.
  - cbn in Hop. apply bool_decide_eq_false in Hop.
    intros [= <-]. cbn. by rewrite lookup_delete_ne.
  - unfold PrepareForUse.
    destruct (mRenderTextures st !! id'); by intros [= <-].
  - by intros [= <-].
  - by intros [= <-].
  - unfold lockExternalImage, GetRenderTexture.
    destruct (mRenderTextures st !! id'); by intros [= <-].
  - by intros [= <-].
Qed.

Lemma runTextures_keeps_registered id ops st st' :
  Forall (fun op => unregisters id op = false) ops ->
  is_Some (mRenderTextures st !! id) ->
  runTextures ops st = Done st' ->
  is_Some (mRenderTextures st' !! id).
Proof.
  intros Hops. revert st. induction Hops as [|op ops Hop _ IH]; intros st Hreg.
  - by intros [= <-].
  - cbn. destruct (stepTexture st op) as [st1|] eqn:Hstep; [|done].
    cbn. apply IH. by eapply stepTexture_keeps_registered.
Qed.

(** C6: after an id has been registered, registering it again is fatal
    as long as no unregistration of that id has come in between, whatever
    else the registry was asked to do; after [UnregisterExternalImage] the
    id can be registered again, and then names the new host. *)
Theorem RegisterExternalImage_twice_is_fatal
    (id t1 t2 : Z) (ops : list TextureOp) (st st1 st' : State) :
  RegisterExternalImage id t1 st = Done st1 ->
  Forall (fun op => unregisters id op = false) ops ->
  runTextures ops st1 = Done st' ->
  RegisterExternalImage id t2 st' = Fatal
  /\ exists st2 st3,
       UnregisterExternalImage id st' = Done st2
       /\ RegisterExternalImage id t2 st2 = Done st3
       /\ GetRenderTexture id st3 = Some t2
       /\ mRenderTexturesDeferred st3 = mRenderTexturesDeferred st2.
Proof.
  intros Hreg Hops Hrun.
  assert (is_Some (mRenderTextures st1 !! id)) as Hin1.
  { unfold RegisterExternalImage in Hreg.
    destruct (mRenderTextures st !! id); [done|].
    injection Hreg as <-. cbn. rewrite lookup_insert_eq. by eexists. }
  destruct (runTextures_keeps_registered _ _ _ _ Hops Hin1 Hrun) as [t Ht].
  split.
  - unfold RegisterExternalImage. by rewrite Ht.
  - unfold UnregisterExternalImage. rewrite Ht.
    destruct (referencedElsewhere t st'); eexists; eexists;
      (split; [reflexivity|]);
      unfold RegisterExternalImage, GetRenderTexture; cbn;
      rewrite lookup_delete_eq; (split; [reflexivity|]); cbn;
      rewrite lookup_insert_eq; done.
Qed.

(** ** Preparation before locking *)

Lemma lock_all_effects ids st :
  let st' := foldl (fun s id => lockExternalImage id s) st ids in
  mEffects st'
  = mEffects st ++ omap (fun id => Locked <$> GetRenderTexture id st) ids
  /\ mRenderTextures st' = mRenderTextures st
  /\ mRenderTexturesPrepareForUse st' = mRenderTexturesPrepareForUse st.
Proof.
  cbv zeta. revert st. induction ids as [|id ids IH]; intros st; cbn.
  - by rewrite app_nil_r.
  - destruct (IH (lockExternalImage id st)) as (He & Hm & Hp).
    rewrite He, Hm, Hp. unfold lockExternalImage, GetRenderTexture.
    destruct (mRenderTextures st !! id) as [t|] eqn:Hid; cbn.
    + by rewrite <- app_assoc.
    + done.
Qed.

(** A turn of the worker: the preparation hook of every staged entry is
    called exactly once, in staging order, before any texture host is
    locked, and the prepare list is empty afterwards; so an image staged
    by [PrepareForUse] before the turn has been prepared when the turn
    locks it. *)
Theorem prepare_before_lock (ids : list Z) (st : State) :
  let st' := workerTurn ids st in
  let locks := omap (fun id => Locked <$> GetRenderTexture id st) ids in
  mRenderTexturesPrepareForUse st' = []
  /\ mEffects st'
     = mEffects st ++ (Prepared <$> mRenderTexturesPrepareForUse st) ++ locks
  /\ (forall id h, GetRenderTexture id st = Some h ->
      mEffects (workerTurn ids (PrepareForUse id st))
      = mEffects st
          ++ (Prepared <$> mRenderTexturesPrepareForUse st ++ [h]) ++ locks).
Proof.
  cbv zeta. unfold workerTurn.
  destruct (lock_all_effects ids (HandlePrepareForUse st)) as (He & Hm & Hp).
  split; [by rewrite Hp|]. split.
  - rewrite He. cbn. by rewrite <- app_assoc.
  - intros id h Hid.
    destruct (lock_all_effects ids (HandlePrepareForUse (PrepareForUse id st)))
      as (He' & _ & _).
    rewrite He'. unfold PrepareForUse. unfold GetRenderTexture in Hid.
    rewrite Hid. cbn. by rewrite <- app_assoc.
Qed.









(** ** The theorems at work on the sample states *)



(** The registry does not check the protocol: a caller that locks before
    the worker has handled the staging gets its lock ahead of the hook. *)
Example lock_outside_the_protocol :
  followsPrepareProtocol hastyTraffic initialState [] [] = false
  /\ (exists st', runTextures hastyTraffic initialState = Done st'
        /\ mEffects st' = [Locked 100; Prepared 100]).
Proof.
  split; [vm_compute; reflexivity|].
  eexists. split; [vm_compute; reflexivity|]. reflexivity.
Qed.

(** Window 1 asks for three frames; two documents report for the first,
    one with [render = false] and one with [render = true], in either
    order: the frame is drawn for real and two frames stay pending. *)
Lemma HandleFrameOneDoc_order_independent_witness :
  handleFrameDocs twoDocs 1 [false; true] threeFrames
  = FrameRenderingComplete 1 (UpdateAndRender 1 1 100 true threeFrames)
  /\ handleFrameDocs twoDocs 1 [true; false] threeFrames
     = handleFrameDocs twoDocs 1 [false; true] threeFrames
  /\ mPendingFrames
       (windowInfo 1 (handleFrameDocs twoDocs 1 [false; true] threeFrames))
     = [freshFrame 2 200; freshFrame 3 300]
  /\ (mHandlingDeviceReset threeFrames = false ->
      mEffects (handleFrameDocs twoDocs 1 [false; true] threeFrames)
      = mEffects threeFrames ++ [Composite 1 1 100 true]).
Proof.
  apply (HandleFrameOneDoc_order_independent twoDocs 1
           [false; true] [true; false] threeFrames
           (freshFrame 1 100) [freshFrame 2 200; freshFrame 3 300]).
  - vm_compute. reflexivity.
  - vm_compute. reflexivity.
  - reflexivity.
  - reflexivity.
  - discriminate.
  - reflexivity.
  - apply perm_swap.
Defined.

Lemma destroyed_is_terminal_witness :
  IsDestroyed 1 (runFrames oneDoc callsAfterDestroy destroyedWindow) = true
  /\ filter (aboutWindow 1)
       (mEffects (runFrames oneDoc callsAfterDestroy destroyedWindow))
     = filter (aboutWindow 1) (mEffects destroyedWindow)
  /\ pendingLength 1 (runFrames oneDoc callsAfterDestroy destroyedWindow) = 1.
Proof.
  assert (IsDestroyed 1 destroyedWindow = true) as Hd
    by (vm_compute; reflexivity).
  destruct (destroyed_is_terminal oneDoc 1 callsAfterDestroy destroyedWindow Hd)
    as (H1 & _ & H3 & _).
  split; [exact H1|]. split; [exact H3|]. vm_compute. reflexivity.
Defined.

Lemma RegisterExternalImage_twice_is_fatal_witness :
  exists st',
    runTextures (TRegister 5 100 :: registryTraffic) initialState = Done st'
    /\ RegisterExternalImage 5 200 st' = Fatal.
Proof.
  eexists. split.
  - vm_compute. reflexivity.
  - eapply (RegisterExternalImage_twice_is_fatal 5 100 200 registryTraffic
              initialState).
    + reflexivity.
    + repeat constructor.
    + vm_compute. reflexivity.
Defined.

Example live_window_is_rendered :
  mEffects (runFrames oneDoc callsAfterDestroy destroyedWindow)
  = [Composite 2 1 100 true].
Proof. vm_compute. reflexivity. Qed.

(** * Further properties of the code *)

(** ** Backend selection *)

(** X1: on a build without [XP_WIN] the ANGLE switch has no influence:
    two environments with the same factories give the same calls and the
    same result, whatever [UseWebRenderANGLE] says. *)
Theorem Create_ANGLE_switch_needs_Windows
    (cfg : BuildConfig) (env env' : Env) (w : Z) :
  XP_WIN cfg = false ->
  (forall k, factory env k w = factory env' k w) ->
  Create cfg env w = Create cfg env' w.
Proof.
  intros Hwin Hf. unfold Create. rewrite Hwin. cbn.
  by rewrite !Hf.
Qed.

Lemma Create_ANGLE_switch_needs_Windows_witness :
  Create cfgWayland envOnlyOGLWorks 7
  = Create cfgWayland
      {| UseWebRenderANGLE := false; factory := factory envOnlyOGLWorks |} 7.
Proof.
  apply Create_ANGLE_switch_needs_Windows; [reflexivity|].
  intros k. reflexivity.
Defined.

(** X2: making more backends constructible never turns a success of
    [Create] into a failure: if [Create] returns a compositor in one
    environment, it returns one in every environment with the same ANGLE
    switch in which each factory that succeeded still succeeds. *)
Theorem Create_success_monotone
    (cfg : BuildConfig) (env env' : Env) (w : Z) :
  UseWebRenderANGLE env = UseWebRenderANGLE env' ->
  (forall k, is_Some (factory env k w) -> is_Some (factory env' k w)) ->
  is_Some (snd (Create cfg env w)) ->
  is_Some (snd (Create cfg env' w)).
Proof.
  intros Hflag Hmore. unfold Create. rewrite <- Hflag.
  destruct (XP_WIN cfg && UseWebRenderANGLE env); cbn; [apply Hmore|].
  destruct (MOZ_WAYLAND cfg || MOZ_WIDGET_ANDROID cfg).
  - destruct (factory env' EGL w) as [c'|] eqn:Hegl'; cbn; [by eexists|].
    destruct (factory env EGL w) as [c|] eqn:Hegl.
    { destruct (Hmore EGL) as [x Hx]; [by rewrite Hegl|]. congruence. }
    destruct (MOZ_WIDGET_ANDROID cfg); [done|].
    destruct (XP_MACOSX cfg); cbn; apply Hmore.
  - cbn. destruct (MOZ_WIDGET_ANDROID cfg); [done|].
    destruct (XP_MACOSX cfg); cbn; apply Hmore.
Qed.

Lemma Create_success_monotone_witness :
  is_Some (snd (Create cfgWayland envEGLWorks 7)).
Proof.
  apply (Create_success_monotone cfgWayland
           {| UseWebRenderANGLE := false; factory := factory envOnlyOGLWorks |}
           envEGLWorks 7).
  - reflexivity.
  - intros k. destruct k; cbn; intros [c Hc]; try discriminate. by eexists.
  - by eexists.
Defined.

(** X3: [Create] calls at most two factories and none of them twice; a
    second factory is called only after [RenderCompositorEGL::Create]
    returned null, and it is never ANGLE or EGL. *)
Theorem Create_calls_at_most_two (cfg : BuildConfig) (env : Env) (w : Z) :
  let tried := fst (Create cfg env w) in
  NoDup tried
  /\ (length tried <= 2)%nat
  /\ forall k, tried !! 1%nat = Some k ->
       tried !! 0%nat = Some EGL /\ factory env EGL w = None
       /\ (k = NativeOGL \/ k = OGL).
Proof.
  cbv zeta. unfold Create.
  destruct (XP_WIN cfg && UseWebRenderANGLE env); cbn.
  { split; [apply NoDup_singleton|]. split; [lia|]. intros k [=]. }
  destruct (MOZ_WAYLAND cfg || MOZ_WIDGET_ANDROID cfg);
    [destruct (factory env EGL w) as [c|] eqn:Hegl|];
    destruct (MOZ_WIDGET_ANDROID cfg), (XP_MACOSX cfg); cbn;
    (split; [repeat constructor; set_solver|]); (split; [lia|]);
    intros k [=]; subst; auto.
Qed.

(** X4: the OpenGL factory is called exactly when the ANGLE gate is not
    taken, the build is neither Android nor macOS, and EGL, if the build
    has it, returned null; the native-layer factory exactly under the same
    conditions on macOS.  So neither is ever reached on Android or behind
    the ANGLE gate. *)
Theorem Create_reaches_fallback_iff (cfg : BuildConfig) (env : Env) (w : Z) :
  let tried := fst (Create cfg env w) in
  let ungated :=
    XP_WIN cfg && UseWebRenderANGLE env = false
    /\ MOZ_WIDGET_ANDROID cfg = false
    /\ (MOZ_WAYLAND cfg = true -> factory env EGL w = None) in
  (OGL ∈ tried <-> ungated /\ XP_MACOSX cfg = false)
  /\ (NativeOGL ∈ tried <-> ungated /\ XP_MACOSX cfg = true).
Proof.
  cbv zeta. unfold Create.
  destruct (XP_WIN cfg && UseWebRenderANGLE env); cbn.
  { split; split; [set_solver|naive_solver|set_solver|naive_solver]. }
  destruct (MOZ_WAYLAND cfg) eqn:Hway, (MOZ_WIDGET_ANDROID cfg) eqn:Handroid;
    cbn; try destruct (factory env EGL w) as [c|] eqn:Hegl; cbn;
    destruct (XP_MACOSX cfg) eqn:Hmac; cbn;
    (split; split; [set_solver|naive_solver by set_solver
                   |set_solver|naive_solver by set_solver]).
Qed.

(** X5: where the OpenGL fallback exists, that is with the ANGLE gate not
    taken on a build that is neither Android nor macOS, [Create] returns
    none exactly when OpenGL and, on Wayland, EGL both fail; in particular
    it succeeds whenever the OpenGL backend can be constructed. *)
Theorem Create_desktop_fallback (cfg : BuildConfig) (env : Env) (w : Z) :
  XP_WIN cfg && UseWebRenderANGLE env = false ->
  MOZ_WIDGET_ANDROID cfg = false ->
  XP_MACOSX cfg = false ->
  (snd (Create cfg env w) = None
   <-> (MOZ_WAYLAND cfg = true -> factory env EGL w = None)
       /\ factory env OGL w = None)
  /\ (is_Some (factory env OGL w) -> is_Some (snd (Create cfg env w))).
Proof.
  intros Hgate Handroid Hmac. unfold Create.
  rewrite Hgate, Handroid, Hmac, orb_false_r.
  destruct (MOZ_WAYLAND cfg); cbn.
  - destruct (factory env EGL w) as [c|] eqn:Hegl; cbn.
    + split; [|by eexists]. split; [done|]. intros [H _]. by apply H.
    + split; [|done]. naive_solver.
  - split; [|done]. naive_solver.
Qed.

Lemma Create_desktop_fallback_witness :
  (snd (Create cfgWayland envOnlyOGLWorks 7) = None
   <-> (MOZ_WAYLAND cfgWayland = true -> factory envOnlyOGLWorks EGL 7 = None)
       /\ factory envOnlyOGLWorks OGL 7 = None)
  /\ (is_Some (factory envOnlyOGLWorks OGL 7) ->
      is_Some (snd (Create cfgWayland envOnlyOGLWorks 7))).
Proof.
  apply Create_desktop_fallback; reflexivity.
Defined.

(** X6: the outcome of [Create] depends only on the factories it calls:
    an environment with the same ANGLE switch whose factories agree on
    the ones that were called gives the same calls and the same result,
    however its other factories behave. *)
Theorem Create_depends_only_on_called
    (cfg : BuildConfig) (env env' : Env) (w : Z) :
  UseWebRenderANGLE env = UseWebRenderANGLE env' ->
  (forall k, k ∈ fst (Create cfg env w) ->
             factory env' k w = factory env k w) ->
  Create cfg env' w = Create cfg env w.
Proof.
  intros Hflag. unfold Create. rewrite <- Hflag.
  destruct (XP_WIN cfg && UseWebRenderANGLE env); cbn.
  { intros Hsame. rewrite Hsame; [done|set_solver]. }
  destruct (MOZ_WAYLAND cfg || MOZ_WIDGET_ANDROID cfg).
  - destruct (factory env EGL w) as [c|] eqn:Hegl; cbn.
    + intros Hsame. rewrite Hsame, Hegl; [done|set_solver].
    + destruct (MOZ_WIDGET_ANDROID cfg); cbn.
      * intros Hsame. rewrite Hsame, Hegl; [done|set_solver].
      * destruct (XP_MACOSX cfg); cbn; intros Hsame;
          rewrite (Hsame EGL), Hegl by set_solver; cbn;
          (rewrite Hsame; [done|set_solver]).
  - cbn. destruct (MOZ_WIDGET_ANDROID cfg); [done|].
    destruct (XP_MACOSX cfg); cbn; intros Hsame;
      (rewrite Hsame; [done|set_solver]).
Qed.

Lemma Create_depends_only_on_called_witness :
  Create cfgAndroid envEGLWorks 7
  = Create cfgAndroid
      {| UseWebRenderANGLE := false;
         factory := fun k w =>
           match k with
           | EGL => Some {| mKind := EGL; mWidget := w; gl := None |}
           | _ => None
           end |} 7.
Proof.
  apply Create_depends_only_on_called; [reflexivity|].
  intros k Hk. apply list_elem_of_singleton in Hk. by subst k.
Defined.

(** ** The comparison operators of the FFI structs *)

Import Ffi.

Section FfiEquality.

Variable float : Type.
Variable feq : float -> float -> bool.
Variable Color : Type.
Variable Color_eq : Color -> Color -> bool.

Local Abbreviation glyph_eq := (WRGlyphInstance_eq float feq).
Local Abbreviation array_eq := (WRGlyphArray_eq float feq Color Color_eq).
Local Abbreviation loop := (glyphsLoop float feq).

(** The loop compares the glyphs from [i] on, pair by pair, and stays
    within both arrays when they are equally long. *)
Lemma glyphsLoop_spec remaining i (gs os : list (WRGlyphInstance float)) :
  (i + remaining)%nat = length gs ->
  length gs = length os ->
  exists b, loop remaining i gs os = Done b
    /\ (b = true <-> Forall2 (fun u v => glyph_eq u v = true)
                       (drop i gs) (drop i os)).
Proof.
  revert i. induction remaining as [|n IH]; intros i Hi Hlen.
  - exists true. split; [done|]. split; [|done]. intros _.
    rewrite !drop_ge by lia. constructor.
  - destruct (lookup_lt_is_Some_2 gs i) as [x Hx]; [lia|].
    destruct (lookup_lt_is_Some_2 os i) as [y Hy]; [lia|].
    cbn. unfold ElementAt. rewrite Hx, Hy. cbn.
    rewrite (drop_S _ _ _ Hx), (drop_S _ _ _ Hy).
    destruct (glyph_eq x y) eqn:Hxy; cbn.
    + destruct (IH (S i)) as (b & Hb & Hiff); [lia|done|].
      exists b. split; [done|]. rewrite Hiff. split.
      * by constructor.
      * by inversion 1.
    + exists false. split; [done|]. split; [done|].
      inversion 1; congruence.
Qed.

Lemma array_eq_spec (x other : WRGlyphArray float Color) :
  exists b, array_eq x other = Done b
    /\ (b = true <->
        Color_eq (WRGlyphArray_color _ _ x) (WRGlyphArray_color _ _ other) = true
        /\ Forall2 (fun u v => glyph_eq u v = true)
             (WRGlyphArray_glyphs _ _ x) (WRGlyphArray_glyphs _ _ other)).
Proof.
  unfold WRGlyphArray_eq.
  destruct (Color_eq _ _) eqn:Hc; cbn.
  2: { exists false. split; [done|]. split; [done|]. by intros [? _]. }
  destruct (length _ =? length _)%nat eqn:Hlen; cbn.
  - apply Nat.eqb_eq in Hlen.
    destruct (glyphsLoop_spec (length (WRGlyphArray_glyphs _ _ x)) 0
                (WRGlyphArray_glyphs _ _ x) (WRGlyphArray_glyphs _ _ other))
      as (b & Hb & Hiff); [done|done|].
    exists b. split; [done|]. rewrite Hiff. cbn. naive_solver.
  - apply Nat.eqb_neq in Hlen. exists false. split; [done|].
    split; [done|]. intros [_ Hall]. by apply Forall2_length in Hall.
Qed.

(** X7: [WRGlyphArray::operator==] never indexes past the end of either
    array, whatever their lengths, and answers [true] exactly when the
    colours compare equal, the arrays are equally long and the glyphs
    compare equal pair by pair. *)
Theorem WRGlyphArray_eq_total (x other : WRGlyphArray float Color) :
  exists b, array_eq x other = Done b
    /\ (b = true <->
        Color_eq (WRGlyphArray_color _ _ x) (WRGlyphArray_color _ _ other) = true
        /\ Forall2 (fun u v => glyph_eq u v = true)
             (WRGlyphArray_glyphs _ _ x) (WRGlyphArray_glyphs _ _ other)).
Proof.
  unfold WRGlyphArray_eq.
  destruct (Color_eq _ _) eqn:Hc; cbn.
  2: { exists false. split; [done|]. split; [done|]. by intros [? _]. }
  destruct (length _ =? length _)%nat eqn:Hlen; cbn.
  - apply Nat.eqb_eq in Hlen.
    destruct (glyphsLoop_spec (length (WRGlyphArray_glyphs _ _ x)) 0
                (WRGlyphArray_glyphs _ _ x) (WRGlyphArray_glyphs _ _ other))
      as (b & Hb & Hiff); [done|done|].
    exists b. split; [done|]. rewrite Hiff. cbn. naive_solver.
  - apply Nat.eqb_neq in Hlen. exists false. split; [done|].
    split; [done|]. intros [_ Hall]. by apply Forall2_length in Hall.
Qed.

Lemma glyphsLoop_sym remaining i (gs os : list (WRGlyphInstance float)) :
  (forall u v, glyph_eq u v = glyph_eq v u) ->
  loop remaining i gs os = loop remaining i os gs.
Proof.
  intros Hsym. revert i. induction remaining as [|n IH]; intros i; [done|].
  cbn. unfold ElementAt.
  destruct (gs !! i) as [x|], (os !! i) as [y|]; cbn; try done.
  rewrite (Hsym y x). destruct (glyph_eq x y); cbn; [apply IH|done].
Qed.

(** X8: when [==] on [float] and on [gfx::Color] is symmetric, so is the
    [operator==] of every struct of the header. *)
Theorem ffi_operators_symmetric :
  (forall u v, feq u v = feq v u) ->
  (forall c d, Color_eq c d = Color_eq d c) ->
  (forall x y, WRColor_eq float feq x y = WRColor_eq float feq y x)
  /\ (forall x y, glyph_eq x y = glyph_eq y x)
  /\ (forall x y, array_eq x y = array_eq y x)
  /\ (forall x y, WRBorderSide_eq float feq x y = WRBorderSide_eq float feq y x)
  /\ (forall x y, WrLayoutSize_eq float feq x y = WrLayoutSize_eq float feq y x)
  /\ (forall x y, WrRect_eq float feq x y = WrRect_eq float feq y x)
  /\ (forall x y, WRImageMask_eq float feq x y = WRImageMask_eq float feq y x).
Proof.
  intros Hf Hc.
  assert (forall x y, WRColor_eq float feq x y = WRColor_eq float feq y x)
    as Hcolor.
  { intros x y. unfold WRColor_eq.
    by rewrite (Hf (WRColor_r _ x)), (Hf (WRColor_g _ x)),
      (Hf (WRColor_b _ x)), (Hf (WRColor_a _ x)). }
  assert (forall x y, glyph_eq x y = glyph_eq y x) as Hglyph.
  { intros x y. unfold WRGlyphInstance_eq.
    by rewrite Z.eqb_sym, (Hf (WRGlyphInstance_x _ x)),
      (Hf (WRGlyphInstance_y _ x)). }
  assert (forall x y, WrRect_eq float feq x y = WrRect_eq float feq y x)
    as Hrect.
  { intros x y. unfold WrRect_eq.
    by rewrite (Hf (WrRect_x _ x)), (Hf (WrRect_y _ x)),
      (Hf (WrRect_width _ x)), (Hf (WrRect_height _ x)). }
  split; [done|]. split; [done|]. split; [|split; [|split; [|split]]].
  - intros x y. unfold WRGlyphArray_eq.
    rewrite (Hc (WRGlyphArray_color _ _ x)).
    rewrite (Nat.eqb_sym (length (WRGlyphArray_glyphs _ _ x))).
    destruct (Color_eq _ _); cbn; [|done].
    destruct (length _ =? length _)%nat eqn:Hlen; cbn; [|done].
    apply Nat.eqb_eq in Hlen. rewrite Hlen. by apply glyphsLoop_sym.
  - intros x y. unfold WRBorderSide_eq.
    by rewrite (Hf (WRBorderSide_width _ x)), Hcolor, Z.eqb_sym.
  - intros x y. unfold WrLayoutSize_eq.
    by rewrite (Hf (WrLayoutSize_width _ x)), (Hf (WrLayoutSize_height _ x)).
  - done.
  - intros x y. unfold WRImageMask_eq.
    rewrite Z.eqb_sym, Hrect. f_equal.
    by destruct (WRImageMask_repeat _ x), (WRImageMask_repeat _ y).
Qed.

(** X9: when [==] on [float] and on [gfx::Color] is transitive, so is
    [WRGlyphArray::operator==]: arrays equal to a common third are equal
    to each other. *)
Theorem WRGlyphArray_eq_transitive (x y z : WRGlyphArray float Color) :
  (forall u v w, feq u v = true -> feq v w = true -> feq u w = true) ->
  (forall c d e, Color_eq c d = true -> Color_eq d e = true ->
                 Color_eq c e = true) ->
  array_eq x y = Done true ->
  array_eq y z = Done true ->
  array_eq x z = Done true.
Proof.
  intros Hf Hc Hxy Hyz.
  destruct (array_eq_spec x y) as (b1 & Hb1 & Hiff1).
  destruct (array_eq_spec y z) as (b2 & Hb2 & Hiff2).
  destruct (array_eq_spec x z) as (b3 & Hb3 & Hiff3).
  assert (b1 = true) as -> by congruence.
  assert (b2 = true) as -> by congruence.
  destruct Hiff1 as [[Hc1 Hg1] _]; [done|].
  destruct Hiff2 as [[Hc2 Hg2] _]; [done|].
  rewrite Hb3. f_equal. apply Hiff3. split; [by eapply Hc|].
  clear -Hf Hg1 Hg2.
  revert Hg2. generalize (WRGlyphArray_glyphs _ _ z).
  induction Hg1 as [|u v gs os Huv _ IH]; intros zs Hg2.
  - inversion Hg2. constructor.
  - inversion Hg2 as [|v' w os' zs' Hvw Hrest]; subst.
    constructor; [|by apply IH].
    unfold WRGlyphInstance_eq in *.
    apply andb_true_iff in Huv as [Huv Hy1].
    apply andb_true_iff in Huv as [Hi1 Hx1].
    apply andb_true_iff in Hvw as [Hvw Hy2].
    apply andb_true_iff in Hvw as [Hi2 Hx2].
    apply Z.eqb_eq in Hi1, Hi2.
    rewrite Hi1, Hi2, Z.eqb_refl. cbn.
    by rewrite (Hf _ _ _ Hx1 Hx2), (Hf _ _ _ Hy1 Hy2).
Qed.

Lemma glyphs_self_equal (gs : list (WRGlyphInstance float)) :
  Forall2 (fun u v => glyph_eq u v = true) gs gs
  <-> forallb (glyphSelfEqual float feq) gs = true.
Proof.
  induction gs as [|u gs IH]; cbn.
  - split; [done|constructor].
  - rewrite Forall2_cons, andb_true_iff, IH.
    unfold WRGlyphInstance_eq, glyphSelfEqual, selfEqual.
    by rewrite Z.eqb_refl.
Qed.

(** X10: a value compares equal to itself exactly when every [float] in it
    does: a [WRColor] or [WrRect] with a NaN component, and a glyph array
    with a NaN coordinate or a colour unequal to itself, is not [==]
    itself. *)
Theorem ffi_self_equality :
  (forall c, WRColor_eq float feq c c
             = selfEqual float feq (WRColor_r _ c)
               && selfEqual float feq (WRColor_g _ c)
               && selfEqual float feq (WRColor_b _ c)
               && selfEqual float feq (WRColor_a _ c))
  /\ (forall q, WrRect_eq float feq q q
                = selfEqual float feq (WrRect_x _ q)
                  && selfEqual float feq (WrRect_y _ q)
                  && selfEqual float feq (WrRect_width _ q)
                  && selfEqual float feq (WrRect_height _ q))
  /\ (forall x : WRGlyphArray float Color,
        array_eq x x
        = Done (Color_eq (WRGlyphArray_color _ _ x) (WRGlyphArray_color _ _ x)
                && forallb (glyphSelfEqual float feq)
                     (WRGlyphArray_glyphs _ _ x))).
Proof.
  split; [done|]. split; [done|]. intros x.
  destruct (array_eq_spec x x) as (b & Hb & Hiff). rewrite Hb.
  f_equal. apply eq_true_iff_eq.
  by rewrite Hiff, andb_true_iff, glyphs_self_equal.
Qed.

End FfiEquality.

Lemma demoFeq_sym (u v : option Z) : demoFeq u v = demoFeq v u.
Proof. destruct u, v; cbn; try done. apply Z.eqb_sym. Qed.

Lemma demoFeq_trans (u v w : option Z) :
  demoFeq u v = true -> demoFeq v w = true -> demoFeq u w = true.
Proof.
  destruct u, v, w; cbn; try done. rewrite !Z.eqb_eq. congruence.
Qed.

Lemma ffi_operators_symmetric_witness :
  WRGlyphArray_eq (option Z) demoFeq (option Z) demoFeq demoGlyphs demoGlyphsNaN
  = WRGlyphArray_eq (option Z) demoFeq (option Z) demoFeq demoGlyphsNaN demoGlyphs.
Proof.
  destruct (ffi_operators_symmetric (option Z) demoFeq (option Z) demoFeq
              demoFeq_sym demoFeq_sym) as (_ & _ & Harr & _).
  apply Harr.
Defined.

Lemma WRGlyphArray_eq_transitive_witness :
  WRGlyphArray_eq (option Z) demoFeq (option Z) demoFeq demoGlyphs demoGlyphs
  = Done true.
Proof.
  apply (WRGlyphArray_eq_transitive (option Z) demoFeq (option Z) demoFeq
           demoGlyphs demoGlyphs demoGlyphs demoFeq_trans demoFeq_trans);
    reflexivity.
Defined.

(** A glyph array with a NaN coordinate is not equal to itself, and
    arrays of different lengths are compared without any indexing. *)
Example glyphs_with_NaN_differ_from_themselves :
  WRGlyphArray_eq (option Z) demoFeq (option Z) demoFeq
    demoGlyphsNaN demoGlyphsNaN = Done false
  /\ WRGlyphArray_eq (option Z) demoFeq (option Z) demoFeq
       demoGlyphs
       {| WRGlyphArray_color := Some 1; WRGlyphArray_glyphs := [] |}
     = Done false.
Proof. split; reflexivity. Qed.
